(** * A shallow embedding of gperftools' src/windows/port.cc

    The file models the Windows port layer of gperftools:
    - the emulation of [pthread_key_create] with a destructor
      ([PthreadKeyCreate]), its single-entry registry [destr_fn_info] and
      the two exit notifiers [on_process_term] and [on_tls_callback];
    - [getpagesize] with its function-local static cache;
    - the [__sbrk] stub;
    - [DeleteMatchingFiles].

    Machine words (DWORD, pointers, TLS indexes) are [N]; the null pointer
    and the null function pointer are [0].  The Windows primitives the code
    calls (TlsAlloc, TlsGetValue, TlsSetValue, GetSystemInfo,
    FindFirstFileA/FindNextFileA, _unlink) are modelled after their
    documented behaviour. *)

From Stdlib Require Import NArith ZArith List String Ascii Bool Lia.
Import ListNotations.

(* ================================================================= *)
(** ** Results: normal return or process termination *)

Inductive Result (S A : Type) : Type :=
| Ok (a : A) (s : S)
| Fatal (msg : string).

Arguments Ok {S A} a s.
Arguments Fatal {S A} msg.

Definition bind {S A B} (m : Result S A) (k : A -> S -> Result S B) : Result S B :=
  match m with
  | Ok a s => k a s
  | Fatal msg => Fatal msg
  end.

(** The C library's [assert]: compiled out when [NDEBUG] is defined,
    otherwise aborts the process when the condition is false. *)
Definition c_assert {S} (ndebug : bool) (cond : bool) (expr : string) (s : S)
  : Result S unit :=
  if ndebug then Ok tt s
  else if cond then Ok tt s
  else Fatal ("Assertion failed: " ++ expr)%string.

(* ================================================================= *)
(** ** Threads code *)

Module Tls.

Local Open Scope N_scope.

Definition DWORD := N.
(** port.h: [typedef DWORD pthread_key_t]. *)
Definition pthread_key_t := DWORD.
Definition ptr := N.
Definition fn_ptr := N.
Definition NULL : N := 0.

(** winbase.h *)
Definition TLS_OUT_OF_INDEXES : DWORD := 4294967295.
(** Number of TLS indexes a Windows process can allocate
    (TLS_MINIMUM_AVAILABLE = 64 plus the 1024 expansion slots). *)
Definition TLS_INDEX_LIMIT : N := 1088.

(** winnt.h: reasons passed to TLS callbacks and DllMain. *)
Definition DLL_PROCESS_DETACH : DWORD := 0.
Definition DLL_PROCESS_ATTACH : DWORD := 1.
Definition DLL_THREAD_ATTACH : DWORD := 2.
Definition DLL_THREAD_DETACH : DWORD := 3.

(** Observable actions, in order: TLS accesses made by the notifier and
    destructor invocations.  [EvDestr f arg seen] records the call
    [( *f)(arg)] together with the value the registered key's slot holds
    when the destructor is entered, i.e. what a [TlsGetValue] from inside
    the destructor would read. *)
Inductive Event : Type :=
| EvTlsGetValue (k : pthread_key_t)
| EvTlsSetValue (k : pthread_key_t) (v : ptr)
| EvDestr (f : fn_ptr) (arg : ptr) (seen : ptr).

Record DestrFnClosure : Type := mkClosure {
  destr_fn : fn_ptr;
  key_for_destr_fn_arg : pthread_key_t
}.

(** The process-wide registry together with the calling thread's TLS. *)
Record State : Type := mkState {
  destr_fn_info : DestrFnClosure;
  tls_allocated : N;                     (* indexes 0 .. tls_allocated-1 in use *)
  tls_slots : pthread_key_t -> ptr;      (* this thread's slot values *)
  trace : list Event
}.

(** [static DestrFnClosure destr_fn_info;   // initted to all NULL/0.] *)
Definition init_closure : DestrFnClosure := mkClosure NULL 0.

Definition init_state : State := mkState init_closure 0 (fun _ => NULL) [].

Definition slot_update (t : pthread_key_t -> ptr) (k : pthread_key_t) (v : ptr)
  : pthread_key_t -> ptr :=
  fun k' => if N.eqb k' k then v else t k'.

Definition set_slots (s : State) (t : pthread_key_t -> ptr) : State :=
  mkState (destr_fn_info s) (tls_allocated s) t (trace s).
Definition set_info (s : State) (c : DestrFnClosure) : State :=
  mkState c (tls_allocated s) (tls_slots s) (trace s).
Definition emit (s : State) (e : Event) : State :=
  mkState (destr_fn_info s) (tls_allocated s) (tls_slots s) (trace s ++ [e]).

(** TlsAlloc: the next free index (its slot is 0 in every thread), or
    TLS_OUT_OF_INDEXES when the process has none left. *)
Definition TlsAlloc (s : State) : State * DWORD :=
  if N.ltb (tls_allocated s) TLS_INDEX_LIMIT
  then (mkState (destr_fn_info s) (N.succ (tls_allocated s)) (tls_slots s) (trace s),
        tls_allocated s)
  else (s, TLS_OUT_OF_INDEXES).

Definition tls_valid (s : State) (k : pthread_key_t) : bool :=
  N.ltb k (tls_allocated s).

(** TlsGetValue: 0 on an invalid index. *)
Definition TlsGetValue (s : State) (k : pthread_key_t) : State * ptr :=
  (emit s (EvTlsGetValue k), if tls_valid s k then tls_slots s k else NULL).

(** TlsSetValue: fails (and changes nothing) on an invalid index; the
    BOOL result is ignored by the code. *)
Definition TlsSetValue (s : State) (k : pthread_key_t) (v : ptr) : State :=
  let s' := emit s (EvTlsSetValue k v) in
  if tls_valid s k then set_slots s' (slot_update (tls_slots s) k v) else s'.

Section Notifiers.

(** What the function at address [f], called with [arg], does to the
    calling thread's TLS: destructors are application code and may read
    and write TLS slots. *)
Variable destr_body : fn_ptr -> ptr -> (pthread_key_t -> ptr) -> (pthread_key_t -> ptr).

Definition call_destr (s : State) (f : fn_ptr) (arg : ptr) : State :=
  let s' := emit s (EvDestr f arg (tls_slots s (key_for_destr_fn_arg (destr_fn_info s)))) in
  set_slots s' (destr_body f arg (tls_slots s)).

(** [static int on_process_term(void)] *)
Definition on_process_term (s : State) : State * Z :=
  if negb (N.eqb (destr_fn (destr_fn_info s)) NULL) then
    let key := key_for_destr_fn_arg (destr_fn_info s) in
    let '(s1, p) := TlsGetValue s key in
    let s2 := TlsSetValue s1 key NULL in
    if negb (N.eqb p NULL)
    then (call_destr s2 (destr_fn (destr_fn_info s)) p, 0%Z)
    else (s2, 0%Z)
  else (s, 0%Z).

(** [static void NTAPI on_tls_callback(HINSTANCE h, DWORD dwReason, PVOID pv)];
    the handle and reserved pointer are unused. *)
Definition on_tls_callback (h : N) (dwReason : DWORD) (pv : N) (s : State) : State :=
  if N.eqb dwReason DLL_THREAD_DETACH then fst (on_process_term s) else s.

End Notifiers.

(** [extern "C" pthread_key_t PthreadKeyCreate(void ( *destr_fn)(void* ))];
    [ndebug] is whether the build defines NDEBUG. *)
Definition PthreadKeyCreate (ndebug : bool) (destr_fn_arg : fn_ptr) (s : State)
  : Result State pthread_key_t :=
  let '(s1, key) := TlsAlloc s in
  if negb (N.eqb destr_fn_arg NULL) then
    bind (c_assert ndebug (N.eqb (destr_fn (destr_fn_info s1)) NULL)
            "destr_fn_info.destr_fn == NULL" s1)
         (fun _ s2 => Ok key (set_info s2 (mkClosure destr_fn_arg key)))
  else Ok key s1.

Section MinGW.

Variable destr_body : fn_ptr -> ptr -> (pthread_key_t -> ptr) -> (pthread_key_t -> ptr).

Definition TRUE : Z := 1%Z.

(** [BOOL WINAPI DllMain(HINSTANCE h, DWORD dwReason, PVOID pv)]: the
    entry point used instead of the TLS-callback sections when the code is
    not built with MSVC.  Returns the new state and the BOOL result. *)
Definition DllMain (h : N) (dwReason : DWORD) (pv : N) (s : State) : State * Z :=
  if N.eqb dwReason DLL_THREAD_DETACH
  then (on_tls_callback destr_body h dwReason pv s, TRUE)
  else if N.eqb dwReason DLL_PROCESS_DETACH
  then (fst (on_process_term destr_body s), TRUE)
  else (s, TRUE).

End MinGW.

(** The value [TlsGetValue(k)] reads in this thread. *)
Definition slot_value (s : State) (k : pthread_key_t) : ptr :=
  if tls_valid s k then tls_slots s k else NULL.

(** Number of destructor invocations in a trace. *)
Fixpoint count_destr (evs : list Event) : nat :=
  match evs with
  | [] => O
  | EvDestr _ _ _ :: rest => S (count_destr rest)
  | _ :: rest => count_destr rest
  end.

(** Two destructor behaviours: one that leaves TLS alone, and one that
    stores its argument back into slot [k] (as a destructor that
    re-creates its per-thread object would). *)
Definition inert_destr : fn_ptr -> ptr -> (pthread_key_t -> ptr) -> (pthread_key_t -> ptr) :=
  fun _ _ t => t.
Definition restoring_destr (k : pthread_key_t)
  : fn_ptr -> ptr -> (pthread_key_t -> ptr) -> (pthread_key_t -> ptr) :=
  fun _ a t => slot_update t k a.

(** The state after a [PthreadKeyCreate] call that returns normally. *)
Definition after_create (ndebug : bool) (f : fn_ptr) (s : State) : State :=
  match PthreadKeyCreate ndebug f s with
  | Ok _ s' => s'
  | Fatal _ => s
  end.

(** A thread that created key 0 with destructor 1 and stored [v] in it. *)
Definition stored_state (v : ptr) : State :=
  TlsSetValue (after_create false 1 init_state) 0 v.

(** A process that has used up all its TLS indexes. *)
Definition exhausted_state : State :=
  Nat.iter 1088 (after_create false NULL) init_state.

End Tls.

(* ================================================================= *)
(** ** Basic libraries: getpagesize *)

Module PageSize.

Local Open Scope Z_scope.

(** The two fields of SYSTEM_INFO the code reads (both DWORD). *)
Record SYSTEM_INFO : Type := mkSystemInfo {
  dwPageSize : Z;
  dwAllocationGranularity : Z
}.

(** Conversion of a DWORD to a 32-bit [int] (two's complement wrap). *)
Definition int_of_dword (x : Z) : Z :=
  if x <? 2 ^ 31 then x else x - 2 ^ 32.

(** [int getpagesize()]: [pagesize] is the function-local
    [static int pagesize = 0;] and [si] what GetSystemInfo reports if it is
    called.  Returns the new static value and the result. *)
Definition getpagesize (pagesize : Z) (si : SYSTEM_INFO) : Z * Z :=
  let pagesize' :=
    if pagesize =? 0
    then int_of_dword (Z.max (dwPageSize si) (dwAllocationGranularity si))
    else pagesize in
  (pagesize', pagesize').

(** A sequence of calls in one process; [sis] lists what GetSystemInfo
    would report at each call. *)
Fixpoint getpagesize_calls (pagesize : Z) (sis : list SYSTEM_INFO) : list Z :=
  match sis with
  | [] => []
  | si :: rest =>
      let '(pagesize', r) := getpagesize pagesize si in
      r :: getpagesize_calls pagesize' rest
  end.

End PageSize.

(* ================================================================= *)
(** ** Basic libraries: __sbrk *)

Module Sbrk.

(** Severities of base/logging.h. *)
Inductive LogSeverity : Type := INFO | WARNING | ERROR | FATAL.

(** Modelled from the spec: [LOG] of base/logging.h (not in this source
    tree).  The spec requires a FATAL log to terminate the process with its
    diagnostic; other severities write the message to stderr (modelled as a
    list of lines) and return. *)
Definition LOG (severity : LogSeverity) (msg : string) (stderr : list string)
  : Result (list string) unit :=
  match severity with
  | FATAL => Fatal msg
  | _ => Ok tt (stderr ++ [msg])
  end.

Definition NULL : N := 0.

(** [extern "C" void* __sbrk(ptrdiff_t increment)] *)
Definition __sbrk (increment : Z) (stderr : list string) : Result (list string) N :=
  bind (LOG FATAL "Windows doesn't implement sbrk!" stderr)
       (fun _ stderr' => Ok NULL stderr').

End Sbrk.

(* ================================================================= *)
(** ** DeleteMatchingFiles *)

Module Files.

Local Open Scope string_scope.

(** A directory entry: the directory it lives in and its file name. *)
Record Entry : Type := mkEntry { dir : string; name : string }.

(** The file system as the code sees it: the process's current directory,
    the existing entries, and the lines the log received. *)
Record FS : Type := mkFS {
  cwd : string;
  entries : list Entry;
  vlog : list string
}.

Definition entry_eqb (a b : Entry) : bool :=
  String.eqb (dir a) (dir b) && String.eqb (name a) (name b).

(** Windows wildcard matching of a file name: [*] matches any run of
    characters, [?] exactly one, any other character itself. *)
Fixpoint wild_match (pat name : string) {struct pat} : bool :=
  match pat with
  | EmptyString =>
      match name with EmptyString => true | String _ _ => false end
  | String c p' =>
      if Ascii.eqb c "*"%char then
        (fix star (n : string) : bool :=
           wild_match p' n ||
           match n with EmptyString => false | String _ n' => star n' end) name
      else if Ascii.eqb c "?"%char then
        match name with EmptyString => false | String _ n' => wild_match p' n' end
      else
        match name with
        | EmptyString => false
        | String c' n' => Ascii.eqb c c' && wild_match p' n'
        end
  end.

(** Splits a path at its last backslash into directory and final
    component; [None] when the path has no directory part. *)
Fixpoint split_path (s : string) : option (string * string) :=
  match s with
  | EmptyString => None
  | String c rest =>
      match split_path rest with
      | Some (d, b) => Some (String c d, b)
      | None => if Ascii.eqb c "\"%char then Some (EmptyString, rest) else None
      end
  end.

(** The [cFileName]s FindFirstFileA/FindNextFileA return, in order, for a
    pattern: the entries of the pattern's directory (the current directory
    when it has none) whose names match its last component.  An empty list
    is FindFirstFileA returning INVALID_HANDLE_VALUE. *)
Definition find_files (fs : FS) (full_glob : string) : list string :=
  let '(d, pat) :=
    match split_path full_glob with
    | Some db => db
    | None => (cwd fs, full_glob)
    end in
  map name (filter (fun e => String.eqb (dir e) d && wild_match pat (name e))
                   (entries fs)).

(** Modelled from the spec: [RAW_VLOG] of base/logging.h (not in this
    source tree); the spec says each deletion is logged. *)
Definition RAW_VLOG (msg : string) (fs : FS) : FS :=
  mkFS (cwd fs) (entries fs) (vlog fs ++ [msg]).

(** [_unlink(fname)]: a bare file name is resolved against the current
    directory; a missing file makes it fail, which the code ignores. *)
Definition _unlink (fname : string) (fs : FS) : FS :=
  mkFS (cwd fs)
       (filter (fun e => negb (entry_eqb e (mkEntry (cwd fs) fname))) (entries fs))
       (vlog fs).

(** [memcmp(a, b, n) == 0] *)
Definition memcmp_eq (a b : string) (n : nat) : bool :=
  String.eqb (substring 0 n a) (substring 0 n b).

(** The body of the do-while loop, over the found names. *)
Fixpoint delete_loop (prefix : string) (names : list string) (fs : FS) : FS :=
  match names with
  | [] => fs
  | fname :: rest =>
      let prefix_length := String.length prefix in
      let fs' :=
        if Nat.leb prefix_length (String.length fname) &&
           memcmp_eq fname prefix prefix_length
        then _unlink fname (RAW_VLOG ("Removing old heap profile " ++ fname) fs)
        else fs in
      delete_loop prefix rest fs'
  end.

(** [void DeleteMatchingFiles(const char* prefix, const char* full_glob)] *)
Definition DeleteMatchingFiles (prefix full_glob : string) (fs : FS) : FS :=
  match find_files fs full_glob with
  | [] => fs
  | found => delete_loop prefix found fs
  end.

(** The test the loop applies to each found name before deleting it. *)
Definition name_has_prefix (prefix fname : string) : bool :=
  Nat.leb (String.length prefix) (String.length fname) &&
  memcmp_eq fname prefix (String.length prefix).

(** Three files in C:\tmp, seen from a process whose current directory
    is [here]. *)
Definition profile_dir (here : string) : FS :=
  mkFS here
       [mkEntry "C:\tmp" "profile.1.tmp"; mkEntry "C:\tmp" "profile.2.tmp";
        mkEntry "C:\tmp" "other.tmp"]
       [].

End Files.

(* ================================================================= *)
(** ** Basic libraries: WriteToStderr *)

Module Stderr.

Local Open Scope Z_scope.

Definition STDERR_FILENO : Z := 2.

(** One [write] call: the descriptor and the bytes passed. *)
Record WriteCall : Type := mkWrite { fd : Z; bytes : list ascii }.

(** [write(fd, buf + off, n)]: the [n] bytes of [buf] from offset [off];
    the result is ignored by the caller. *)
Definition write (fd : Z) (buf : list ascii) (off n : Z) : WriteCall :=
  mkWrite fd (firstn (Z.to_nat n) (skipn (Z.to_nat off) buf)).

(** [int] is 32 bits. *)
Definition INT_MAX : Z := 2147483647.
Definition INT_MIN : Z := -2147483648.

(** [for (int i = 0; i < len; i += 80) write(STDERR_FILENO, buf + i,
    std::min(80, len - i));].  [i] and [len] are [int]s: [len - i] cannot
    overflow inside the loop ([0 <= i < len]), but [i += 80] overflows
    when [i + 80 > INT_MAX], which is undefined behaviour; the run then
    has no defined outcome, modelled as [None].  [fuel] bounds the number
    of iterations; each iteration advances [i] by 80, so
    [S (Z.to_nat len)] is always enough. *)
Fixpoint write_loop (fuel : nat) (buf : list ascii) (len i : Z) : option (list WriteCall) :=
  match fuel with
  | O => Some []
  | S fuel' =>
      if i <? len
      then
        let c := write STDERR_FILENO buf i (Z.min 80 (len - i)) in
        if i + 80 <=? INT_MAX
        then option_map (cons c) (write_loop fuel' buf len (i + 80))
        else None
      else Some []
  end.

(** [extern "C" void WriteToStderr(const char* buf, int len)]: the
    [write] calls made, or [None] for undefined behaviour. *)
Definition WriteToStderr (buf : list ascii) (len : Z) : option (list WriteCall) :=
  write_loop (S (Z.to_nat len)) buf len 0.

End Stderr.

(* ================================================================= *)
(** * Properties of the threads code *)

Module TlsProofs.

Import Tls.
Local Open Scope N_scope.

Ltac unfold_tls :=
  unfold on_process_term, TlsGetValue, TlsSetValue, call_destr, emit,
         set_slots, slot_value, tls_valid in *; simpl in *.

Lemma eqb_neq_false (a b : N) : a <> b -> N.eqb a b = false.
Proof. intro H. apply N.eqb_neq. exact H. Qed.

Lemma count_destr_app (l1 l2 : list Event) :
  count_destr (l1 ++ l2) = (count_destr l1 + count_destr l2)%nat.
Proof.
  induction l1 as [|e l1 IH]; simpl; [reflexivity|].
  destruct e; simpl; rewrite ?IH; reflexivity.
Qed.

(** The notifiers never touch the registry or the TLS index allocator. *)
Lemma on_process_term_info destr_body s :
  destr_fn_info (fst (on_process_term destr_body s)) = destr_fn_info s /\
  tls_allocated (fst (on_process_term destr_body s)) = tls_allocated s.
Proof.
  unfold_tls.
  destruct (N.eqb (destr_fn (destr_fn_info s)) NULL); simpl; [auto|].
  destruct (key_for_destr_fn_arg (destr_fn_info s) <? tls_allocated s);
    simpl; [|auto].
  destruct (N.eqb (tls_slots s (key_for_destr_fn_arg (destr_fn_info s))) NULL);
    simpl; auto.
Qed.

(** Every run of [on_process_term] is one of three: nothing at all, a
    read and a clear, or a read, a clear and one destructor call made
    after the clear with the slot already empty. *)
Lemma on_process_term_shape destr_body s :
  let f := destr_fn (destr_fn_info s) in
  let k := key_for_destr_fn_arg (destr_fn_info s) in
  let cleared := TlsSetValue (emit s (EvTlsGetValue k)) k NULL in
  on_process_term destr_body s =
    (if N.eqb f NULL then s
     else if N.eqb (slot_value s k) NULL then cleared
     else call_destr destr_body cleared f (slot_value s k), 0%Z).
Proof.
  unfold on_process_term, TlsGetValue, slot_value. simpl.
  destruct (N.eqb (destr_fn (destr_fn_info s)) NULL); [reflexivity|].
  simpl. destruct (N.eqb _ NULL); reflexivity.
Qed.

Lemma slot_value_nonnull_valid s k :
  slot_value s k <> NULL -> tls_valid s k = true.
Proof.
  unfold slot_value. destruct (tls_valid s k); [auto|]. intro H. now elim H.
Qed.

(** The number of destructor calls one notifier run adds. *)
Lemma on_process_term_count destr_body s :
  let f := destr_fn (destr_fn_info s) in
  let k := key_for_destr_fn_arg (destr_fn_info s) in
  count_destr (trace (fst (on_process_term destr_body s))) =
  (count_destr (trace s) +
   if negb (N.eqb f NULL) && negb (N.eqb (slot_value s k) NULL) then 1 else 0)%nat.
Proof.
  intros f k. subst f k. rewrite on_process_term_shape.
  destruct (N.eqb (destr_fn (destr_fn_info s)) NULL); simpl; [lia|].
  unfold call_destr, TlsSetValue, emit, set_slots.
  destruct (N.eqb (slot_value s _) NULL);
    destruct (tls_valid _ _); simpl; rewrite ?count_destr_app; simpl; lia.
Qed.

(** After a notifier run with a registered destructor, the slot is empty
    unless the destructor put a value back. *)
Lemma on_process_term_slot_after destr_body s :
  let f := destr_fn (destr_fn_info s) in
  let k := key_for_destr_fn_arg (destr_fn_info s) in
  f <> NULL ->
  (forall a t, t k = NULL -> destr_body f a t k = NULL) ->
  slot_value (fst (on_process_term destr_body s)) k = NULL.
Proof.
  intros f k Hf Hd. subst f k. rewrite on_process_term_shape.
  rewrite (eqb_neq_false _ _ Hf). simpl.
  unfold call_destr, TlsSetValue, emit, set_slots, slot_value, tls_valid; simpl.
  remember (key_for_destr_fn_arg (destr_fn_info s)) as k eqn:Ek.
  destruct (N.ltb k (tls_allocated s)) eqn:Hv; simpl.
  - destruct (N.eqb (tls_slots s k) NULL); simpl; rewrite Hv.
    + unfold slot_update. now rewrite N.eqb_refl.
    + apply Hd. unfold slot_update. now rewrite N.eqb_refl.
  - simpl. rewrite Hv. reflexivity.
Qed.

(** Claim C1 (as amended).  With a destructor registered and a non-null
    value [v] in its slot, the thread-exit notifier reads the slot,
    clears it, and then calls the destructor exactly once with [v]; the
    destructor runs on the cleared slot, so the slot is null afterwards
    unless the destructor itself stores a new value into it. *)
Theorem on_process_term_invokes_once destr_body s v :
  destr_fn (destr_fn_info s) <> NULL ->
  slot_value s (key_for_destr_fn_arg (destr_fn_info s)) = v ->
  v <> NULL ->
  let f := destr_fn (destr_fn_info s) in
  let k := key_for_destr_fn_arg (destr_fn_info s) in
  let s' := fst (on_process_term destr_body s) in
  snd (on_process_term destr_body s) = 0%Z /\
  trace s' = trace s ++ [EvTlsGetValue k; EvTlsSetValue k NULL; EvDestr f v NULL] /\
  count_destr (trace s') = S (count_destr (trace s)) /\
  tls_slots s' = destr_body f v (slot_update (tls_slots s) k NULL) /\
  (destr_body f v (slot_update (tls_slots s) k NULL) k = NULL ->
   slot_value s' k = NULL).
Proof.
  intros Hf Hv Hnz f k s'. subst f k s'.
  rewrite on_process_term_shape.
  rewrite (eqb_neq_false _ _ Hf), Hv, (eqb_neq_false _ _ Hnz).
  unfold slot_value in Hv.
  destruct (tls_valid s (key_for_destr_fn_arg (destr_fn_info s))) eqn:Hval;
    [| congruence].
  unfold call_destr, TlsSetValue, emit, set_slots, slot_value, tls_valid in *.
  simpl. rewrite Hval. simpl.
  unfold tls_valid in Hval. rewrite Hval.
  unfold slot_update at 2. rewrite N.eqb_refl.
  repeat rewrite <- app_assoc. simpl.
  repeat split.
  - unfold slot_update. rewrite N.eqb_refl. reflexivity.
  - rewrite count_destr_app. simpl. lia.
  - intros Hk. exact Hk.
Qed.

(** Claim C1 fails as stated: a destructor that stores its argument back
    into its slot leaves the slot non-null after the thread-exit
    notifier. *)
Lemma on_process_term_slot_restored :
  let s' := on_tls_callback (restoring_destr 0) 0 DLL_THREAD_DETACH 0 (stored_state 5) in
  slot_value (stored_state 5) 0 = 5 /\
  count_destr (trace s') = 1%nat /\
  slot_value s' 0 = 5.
Proof. vm_compute. repeat split. Qed.

Lemma on_process_term_invokes_once_witness :
  destr_fn (destr_fn_info (stored_state 5)) <> NULL /\
  slot_value (stored_state 5) 0 = 5 /\
  trace (fst (on_process_term inert_destr (stored_state 5))) =
    trace (stored_state 5) ++ [EvTlsGetValue 0; EvTlsSetValue 0 NULL; EvDestr 1 5 NULL].
Proof.
  assert (H1 : destr_fn (destr_fn_info (stored_state 5)) <> NULL)
    by (vm_compute; discriminate).
  assert (H2 : slot_value (stored_state 5)
                 (key_for_destr_fn_arg (destr_fn_info (stored_state 5))) = 5)
    by (vm_compute; reflexivity).
  assert (H3 : (5 : ptr) <> NULL) by (vm_compute; discriminate).
  split; [exact H1|]. split; [vm_compute; reflexivity|].
  exact (proj1 (proj2 (on_process_term_invokes_once inert_destr (stored_state 5) 5 H1 H2 H3))).
Defined.

(** Claim C3.  Whenever a notifier run calls the destructor, its actions
    are exactly: read the slot, store NULL into it, then call the
    destructor; the destructor is entered with the slot already NULL and
    runs on a TLS whose slot is NULL. *)
Theorem on_process_term_clears_before_destr destr_body s :
  let k := key_for_destr_fn_arg (destr_fn_info s) in
  let s' := fst (on_process_term destr_body s) in
  exists evs, trace s' = trace s ++ evs /\
    forall f a seen, In (EvDestr f a seen) evs ->
      seen = NULL /\
      evs = [EvTlsGetValue k; EvTlsSetValue k NULL; EvDestr f a seen] /\
      exists t, t k = NULL /\ tls_slots s' = destr_body f a t.
Proof.
  intros k s'. subst k s'. rewrite on_process_term_shape.
  destruct (N.eqb (destr_fn (destr_fn_info s)) NULL) eqn:Hf; simpl.
  { exists []. rewrite app_nil_r. split; [reflexivity|]. intros ? ? ? []. }
  remember (key_for_destr_fn_arg (destr_fn_info s)) as k eqn:Ek.
  destruct (N.eqb (slot_value s k) NULL) eqn:Hz.
  - exists [EvTlsGetValue k; EvTlsSetValue k NULL].
    unfold TlsSetValue, emit, set_slots.
    destruct (tls_valid _ _); simpl; rewrite <- app_assoc;
      (split; [reflexivity|]); intros f a seen Hin; simpl in Hin;
      destruct Hin as [Hin|[Hin|[]]]; discriminate.
  - assert (Hval : tls_valid s k = true).
    { apply slot_value_nonnull_valid. apply N.eqb_neq. exact Hz. }
    unfold call_destr, TlsSetValue, emit, set_slots, tls_valid in *. simpl.
    rewrite Hval. simpl. rewrite <- Ek.
    exists [EvTlsGetValue k; EvTlsSetValue k NULL;
            EvDestr (destr_fn (destr_fn_info s)) (slot_value s k)
                    (slot_update (tls_slots s) k NULL k)].
    repeat rewrite <- app_assoc. simpl. split; [reflexivity|].
    intros f a seen Hin. simpl in Hin.
    destruct Hin as [Hin|[Hin|[Hin|[]]]]; try discriminate.
    injection Hin as <- <- <-.
    unfold slot_update at 1. rewrite N.eqb_refl.
    split; [reflexivity|]. split; [reflexivity|].
    exists (slot_update (tls_slots s) k NULL). split; [|reflexivity].
    unfold slot_update. now rewrite N.eqb_refl.
Qed.

(** Claim C5.  With no destructor registered a notifier run changes
    nothing at all; with one registered but an empty slot it calls no
    destructor and leaves every slot value and the registry as they
    were. *)
Theorem on_process_term_nothing_to_do destr_body s :
  (destr_fn (destr_fn_info s) = NULL ->
   on_process_term destr_body s = (s, 0%Z)) /\
  (slot_value s (key_for_destr_fn_arg (destr_fn_info s)) = NULL ->
   let s' := fst (on_process_term destr_body s) in
   count_destr (trace s') = count_destr (trace s) /\
   destr_fn_info s' = destr_fn_info s /\
   forall k', slot_value s' k' = slot_value s k').
Proof.
  split.
  - intro Hf. rewrite on_process_term_shape, Hf. reflexivity.
  - intros Hz s'. subst s'.
    pose proof (on_process_term_count destr_body s) as Hc. simpl in Hc.
    rewrite Hz in Hc. simpl in Hc.
    rewrite andb_false_r in Hc. rewrite Hc, Nat.add_0_r.
    split; [reflexivity|]. split; [apply on_process_term_info|].
    intro k'. rewrite on_process_term_shape.
    destruct (N.eqb (destr_fn (destr_fn_info s)) NULL); [reflexivity|].
    rewrite Hz. simpl.
    unfold TlsSetValue, emit, set_slots, slot_value, tls_valid in *. simpl.
    remember (key_for_destr_fn_arg (destr_fn_info s)) as k eqn:Ek.
    destruct (N.ltb k (tls_allocated s)) eqn:Hv; simpl; [|reflexivity].
    unfold slot_update. destruct (N.eqb k' k) eqn:Hk; [|reflexivity].
    apply N.eqb_eq in Hk. subst k'. rewrite Hv. symmetry. exact Hz.
Qed.

(** Claim C10.  The TLS callback does nothing for any reason other than
    DLL_THREAD_DETACH. *)
Theorem on_tls_callback_other_reason destr_body h dwReason pv s :
  dwReason <> DLL_THREAD_DETACH ->
  on_tls_callback destr_body h dwReason pv s = s.
Proof.
  intro Hr. unfold on_tls_callback. rewrite (eqb_neq_false _ _ Hr). reflexivity.
Qed.

Lemma on_tls_callback_other_reason_witness :
  DLL_THREAD_ATTACH <> DLL_THREAD_DETACH /\
  on_tls_callback inert_destr 0 DLL_THREAD_ATTACH 0 (stored_state 5) = stored_state 5.
Proof.
  assert (H : DLL_THREAD_ATTACH <> DLL_THREAD_DETACH) by (vm_compute; discriminate).
  split; [exact H|].
  exact (on_tls_callback_other_reason inert_destr 0 DLL_THREAD_ATTACH 0 (stored_state 5) H).
Defined.

(** Claim C4 fails as stated: a destructor that stores its argument back
    into its slot is called by the thread-exit notifier and again by the
    process-exit notifier. *)
Lemma thread_then_process_exit_twice :
  let s1 := on_tls_callback (restoring_destr 0) 0 DLL_THREAD_DETACH 0 (stored_state 5) in
  let s2 := fst (on_process_term (restoring_destr 0) s1) in
  count_destr (trace (stored_state 5)) = 0%nat /\
  count_destr (trace s2) = 2%nat.
Proof. vm_compute. split; reflexivity. Qed.

(** When the slot read by a notifier run is empty (or the key is not a
    valid index), the run leaves it empty: it only stores NULL. *)
Lemma on_process_term_slot_null destr_body s :
  slot_value s (key_for_destr_fn_arg (destr_fn_info s)) = NULL ->
  slot_value (fst (on_process_term destr_body s)) (key_for_destr_fn_arg (destr_fn_info s))
    = NULL.
Proof.
  intro H. rewrite on_process_term_shape. simpl.
  destruct (N.eqb (destr_fn (destr_fn_info s)) NULL); [exact H|].
  rewrite H, N.eqb_refl.
  unfold TlsSetValue, emit, set_slots, slot_value, tls_valid; simpl.
  destruct (N.ltb (key_for_destr_fn_arg (destr_fn_info s)) (tls_allocated s)) eqn:Hv;
    simpl; rewrite Hv; [|reflexivity].
  unfold slot_update. now rewrite N.eqb_refl.
Qed.

(** Claim C4 (as amended).  Run the thread-exit notifier and then the
    process-exit notifier for the same thread.  If the destructor's own
    run in the first notifier does not leave a non-null value in its
    (cleared) slot, the destructor is called at most once in total; if
    it does leave one, the process-exit notifier calls it a second time.
    The condition is on this run only: it is what the slot holds after
    the thread-exit notifier, whatever [destr_body] does elsewhere. *)
Theorem thread_then_process_exit_at_most_once destr_body h pv s :
  let k := key_for_destr_fn_arg (destr_fn_info s) in
  let s1 := on_tls_callback destr_body h DLL_THREAD_DETACH pv s in
  let s2 := fst (on_process_term destr_body s1) in
  let n := count_destr (trace s) in
  ((count_destr (trace s1) = S n -> slot_value s1 k = NULL) ->
   (count_destr (trace s2) <= S n)%nat) /\
  (count_destr (trace s1) = S n -> slot_value s1 k <> NULL ->
   count_destr (trace s2) = S (S n)).
Proof.
  intros k s1 s2 n. subst k s1 s2 n.
  unfold on_tls_callback. rewrite N.eqb_refl.
  pose proof (on_process_term_count destr_body (fst (on_process_term destr_body s))) as H2.
  pose proof (on_process_term_count destr_body s) as H1.
  destruct (on_process_term_info destr_body s) as [Hi _].
  simpl in H1, H2. rewrite Hi in H2. rewrite H2, H1.
  destruct (N.eqb (destr_fn (destr_fn_info s)) NULL) eqn:Hf; simpl;
    [split; intros; lia|].
  destruct (N.eqb (slot_value s (key_for_destr_fn_arg (destr_fn_info s))) NULL) eqn:Hs;
    simpl.
  - apply N.eqb_eq in Hs.
    rewrite (on_process_term_slot_null destr_body s Hs), N.eqb_refl. simpl.
    split; intros; lia.
  - split.
    + intro Hrun. rewrite (Hrun ltac:(lia)), N.eqb_refl. simpl. lia.
    + intros _ Hn. rewrite (eqb_neq_false _ _ Hn). simpl. lia.
Qed.

Lemma thread_then_process_exit_at_most_once_witness :
  Nat.le (count_destr (trace (fst (on_process_term inert_destr
            (on_tls_callback inert_destr 0 DLL_THREAD_DETACH 0 (stored_state 5))))))
         (S (count_destr (trace (stored_state 5)))) /\
  count_destr (trace (fst (on_process_term (restoring_destr 0)
            (on_tls_callback (restoring_destr 0) 0 DLL_THREAD_DETACH 0 (stored_state 5)))))
    = S (S (count_destr (trace (stored_state 5)))).
Proof.
  split.
  - apply (proj1 (thread_then_process_exit_at_most_once inert_destr 0 0 (stored_state 5))).
    intros _. vm_compute. reflexivity.
  - apply (proj2 (thread_then_process_exit_at_most_once (restoring_destr 0) 0 0
                    (stored_state 5)));
      vm_compute; [reflexivity | discriminate].
Defined.

(** Claim C2 fails as stated: in a build with NDEBUG the assertion is
    compiled out and a second destructor silently replaces the first. *)
Lemma second_registration_overwrites_ndebug :
  destr_fn_info (after_create true 1 init_state) = mkClosure 1 0 /\
  match PthreadKeyCreate true 2 (after_create true 1 init_state) with
  | Ok k s' => k = 1 /\ destr_fn_info s' = mkClosure 2 1
  | Fatal _ => False
  end.
Proof. vm_compute. repeat split. Qed.

(** Claim C2 (as amended).  Once a destructor is registered: a call with
    a non-null destructor aborts on the assertion when assertions are
    enabled, and overwrites the binding when NDEBUG is defined; a call
    with a null destructor returns normally, leaves the binding as it
    was, and returns TlsAlloc's result (a fresh index while indexes
    remain, TLS_OUT_OF_INDEXES after). *)
Theorem PthreadKeyCreate_second_registration ndebug f s :
  destr_fn (destr_fn_info s) <> NULL ->
  (f <> NULL -> ndebug = false ->
   PthreadKeyCreate ndebug f s =
     Fatal ("Assertion failed: destr_fn_info.destr_fn == NULL")%string) /\
  (f <> NULL -> ndebug = true ->
   exists k s', PthreadKeyCreate ndebug f s = Ok k s' /\
                destr_fn_info s' = mkClosure f k) /\
  (f = NULL ->
   exists k s', PthreadKeyCreate ndebug f s = Ok k s' /\
                destr_fn_info s' = destr_fn_info s /\
                k = (if tls_allocated s <? TLS_INDEX_LIMIT
                     then tls_allocated s else TLS_OUT_OF_INDEXES)).
Proof.
  intro Hreg.
  assert (Hinfo : destr_fn_info (fst (TlsAlloc s)) = destr_fn_info s /\
                  snd (TlsAlloc s) = (if tls_allocated s <? TLS_INDEX_LIMIT
                                      then tls_allocated s else TLS_OUT_OF_INDEXES)).
  { unfold TlsAlloc. destruct (tls_allocated s <? TLS_INDEX_LIMIT); split; reflexivity. }
  unfold PthreadKeyCreate. destruct (TlsAlloc s) as [s1 key] eqn:Ha.
  simpl in Hinfo. destruct Hinfo as [Hi Hk].
  repeat split.
  - intros Hf Hn. subst ndebug. rewrite (eqb_neq_false _ _ Hf). simpl.
    unfold c_assert. rewrite Hi, (eqb_neq_false _ _ Hreg). reflexivity.
  - intros Hf Hn. subst ndebug. rewrite (eqb_neq_false _ _ Hf). simpl.
    exists key, (set_info s1 (mkClosure f key)). split; reflexivity.
  - intros Hf. subst f. simpl. exists key, s1. auto.
Qed.

Lemma PthreadKeyCreate_second_registration_witness :
  destr_fn (destr_fn_info (after_create false 1 init_state)) <> NULL /\
  PthreadKeyCreate false 2 (after_create false 1 init_state) =
    Fatal ("Assertion failed: destr_fn_info.destr_fn == NULL")%string.
Proof.
  assert (H : destr_fn (destr_fn_info (after_create false 1 init_state)) <> NULL)
    by (vm_compute; discriminate).
  split; [exact H|].
  refine (proj1 (PthreadKeyCreate_second_registration false 2 _ H) _ eq_refl).
  vm_compute. discriminate.
Defined.

(** Claim C6 fails as stated: once the process's TLS indexes are used up,
    PthreadKeyCreate returns TLS_OUT_OF_INDEXES normally, with no
    diagnostic. *)
Lemma key_create_exhausted_returns_invalid :
  tls_allocated exhausted_state = TLS_INDEX_LIMIT /\
  PthreadKeyCreate false NULL exhausted_state = Ok TLS_OUT_OF_INDEXES exhausted_state /\
  match PthreadKeyCreate false 7 exhausted_state with
  | Ok k s' => k = TLS_OUT_OF_INDEXES /\ destr_fn_info s' = mkClosure 7 TLS_OUT_OF_INDEXES
  | Fatal _ => False
  end.
Proof. vm_compute. repeat split. Qed.

(** Claim C6 (as amended).  PthreadKeyCreate does not check TlsAlloc's
    result.  It returns normally with a fresh index while indexes remain,
    and with TLS_OUT_OF_INDEXES (registering it if a destructor is given)
    once they are exhausted; the only way it stops the process is the
    assertion on a second destructor. *)
Theorem PthreadKeyCreate_result ndebug f s :
  match PthreadKeyCreate ndebug f s with
  | Ok k s' =>
      (if tls_allocated s <? TLS_INDEX_LIMIT
       then k = tls_allocated s /\ tls_allocated s' = N.succ (tls_allocated s)
       else k = TLS_OUT_OF_INDEXES /\ tls_allocated s' = tls_allocated s) /\
      destr_fn_info s' = (if N.eqb f NULL then destr_fn_info s else mkClosure f k)
  | Fatal msg =>
      msg = ("Assertion failed: destr_fn_info.destr_fn == NULL")%string /\
      ndebug = false /\ f <> NULL /\ destr_fn (destr_fn_info s) <> NULL
  end.
Proof.
  unfold PthreadKeyCreate, TlsAlloc.
  destruct (tls_allocated s <? TLS_INDEX_LIMIT) eqn:Hl;
    destruct (N.eqb f NULL) eqn:Hf; simpl; try (repeat split; reflexivity);
    unfold c_assert; destruct ndebug; simpl; try (repeat split; reflexivity);
    destruct (N.eqb (destr_fn (destr_fn_info s)) NULL) eqn:Hd; simpl;
    try (repeat split; reflexivity);
    repeat split; try reflexivity; intro E; subst;
    [ rewrite N.eqb_refl in Hf | rewrite E, N.eqb_refl in Hd
    | rewrite N.eqb_refl in Hf | rewrite E, N.eqb_refl in Hd ]; discriminate.
Qed.

End TlsProofs.

(* ================================================================= *)
(** * Properties of getpagesize, __sbrk and DeleteMatchingFiles *)

Module PageSizeProofs.

Import PageSize.
Local Open Scope Z_scope.

(** Once the static is non-zero, every call returns it unchanged. *)
Lemma getpagesize_calls_cached (p : Z) (sis : list SYSTEM_INFO) :
  p <> 0 -> Forall (fun r => r = p) (getpagesize_calls p sis).
Proof.
  intro Hp. induction sis as [|si rest IH]; simpl; constructor.
  - unfold getpagesize. rewrite (proj2 (Z.eqb_neq p 0) Hp). reflexivity.
  - unfold getpagesize. rewrite (proj2 (Z.eqb_neq p 0) Hp). exact IH.
Qed.

Lemma pow2_max (a b : Z) :
  0 <= a -> 0 <= b -> Z.max (2 ^ a) (2 ^ b) = 2 ^ Z.max a b.
Proof.
  intros Ha Hb. destruct (Z.le_ge_cases a b) as [H|H].
  - rewrite (Z.max_r a b H), Z.max_r; [reflexivity|].
    apply Z.pow_le_mono_r; lia.
  - rewrite (Z.max_l a b H), Z.max_l; [reflexivity|].
    apply Z.pow_le_mono_r; lia.
Qed.

(** Claim C8.  On a platform whose GetSystemInfo reports a page size and
    an allocation granularity that are powers of two representable in an
    [int], every getpagesize call of the process returns the value the
    first call computed (later reports are never consulted); that value
    is positive, a power of two, and at least the allocation
    granularity. *)
Theorem getpagesize_memoized (si : SYSTEM_INFO) (rest : list SYSTEM_INFO) (a b : Z) :
  0 <= a <= 30 -> 0 <= b <= 30 ->
  dwPageSize si = 2 ^ a -> dwAllocationGranularity si = 2 ^ b ->
  let v := Z.max (dwPageSize si) (dwAllocationGranularity si) in
  Forall (fun r => r = v) (getpagesize_calls 0 (si :: rest)) /\
  0 < v /\ (exists n, 0 <= n /\ v = 2 ^ n) /\
  dwAllocationGranularity si <= v.
Proof.
  intros Ha Hb Hps Hag v.
  assert (Hv : v = 2 ^ Z.max a b).
  { subst v. rewrite Hps, Hag. apply pow2_max; lia. }
  assert (Hpos : 0 < v) by (rewrite Hv; apply Z.pow_pos_nonneg; lia).
  assert (Hsmall : v < 2 ^ 31).
  { rewrite Hv. apply Z.pow_lt_mono_r; lia. }
  assert (Hfirst : getpagesize 0 si = (v, v)).
  { unfold getpagesize. rewrite Z.eqb_refl. unfold int_of_dword. fold v.
    destruct (Z.ltb_spec v (2 ^ 31)); [reflexivity | lia]. }
  split.
  - change (getpagesize_calls 0 (si :: rest))
      with (let '(p', r) := getpagesize 0 si in r :: getpagesize_calls p' rest).
    rewrite Hfirst. constructor; [reflexivity|].
    apply getpagesize_calls_cached. lia.
  - split; [exact Hpos|]. split.
    + exists (Z.max a b). split; [lia | exact Hv].
    + subst v. apply Z.le_max_r.
Qed.

Lemma getpagesize_memoized_witness :
  Forall (fun r => r = 65536)
    (getpagesize_calls 0 [mkSystemInfo 4096 65536; mkSystemInfo 8192 8192]).
Proof.
  exact (proj1 (getpagesize_memoized (mkSystemInfo 4096 65536) [mkSystemInfo 8192 8192]
                  12 16 ltac:(lia) ltac:(lia) eq_refl eq_refl)).
Defined.

End PageSizeProofs.

Module SbrkProofs.

Import Sbrk.

(** Claim C7.  [__sbrk] never returns: whatever the increment and the
    state of stderr, it terminates the process with its diagnostic. *)
Theorem sbrk_always_fatal (increment : Z) (stderr : list string) :
  __sbrk increment stderr = Fatal "Windows doesn't implement sbrk!".
Proof. reflexivity. Qed.

End SbrkProofs.

Module FilesProofs.

Import Files.
Local Open Scope string_scope.

(** The spec's example in the directory the files live in: both profiles
    are removed and logged, [other.tmp] stays. *)
Lemma DeleteMatchingFiles_in_cwd :
  DeleteMatchingFiles "profile." "profile.*.tmp" (profile_dir "C:\tmp") =
  mkFS "C:\tmp" [mkEntry "C:\tmp" "other.tmp"]
       ["Removing old heap profile profile.1.tmp";
        "Removing old heap profile profile.2.tmp"].
Proof. vm_compute. reflexivity. Qed.

(** Claim C9 (code defect).  With the glob naming another directory,
    both profiles match and are logged as removed, but [_unlink] gets the
    bare file name, resolved against the current directory: nothing is
    deleted. *)
Theorem DeleteMatchingFiles_other_directory :
  find_files (profile_dir "C:\work") "C:\tmp\profile.*.tmp" =
    ["profile.1.tmp"; "profile.2.tmp"] /\
  DeleteMatchingFiles "profile." "C:\tmp\profile.*.tmp" (profile_dir "C:\work") =
  mkFS "C:\work" (entries (profile_dir "C:\work"))
       ["Removing old heap profile profile.1.tmp";
        "Removing old heap profile profile.2.tmp"].
Proof. vm_compute. split; reflexivity. Qed.

End FilesProofs.

(* ================================================================= *)
(** * Properties of WriteToStderr *)

Module StderrProofs.

Import Stderr.
Local Open Scope Z_scope.

Lemma firstn_add {A} (a b : nat) (l : list A) :
  firstn (a + b) l = firstn a l ++ firstn b (skipn a l).
Proof.
  revert l. induction a as [|a IH]; intro l; [reflexivity|].
  destruct l as [|x l]; simpl; [now rewrite firstn_nil|]. now rewrite IH.
Qed.

(** The loop with the counter read as an unbounded integer: what the
    [int] loop does as long as [i += 80] stays in range. *)
Fixpoint chunks (fuel : nat) (buf : list ascii) (len i : Z) : list WriteCall :=
  match fuel with
  | O => []
  | S fuel' =>
      if i <? len
      then write STDERR_FILENO buf i (Z.min 80 (len - i)) :: chunks fuel' buf len (i + 80)
      else []
  end.

(** Up to [len = 2147483600] the counter, a multiple of 80 below [len],
    never overflows: the loop is [chunks]. *)
Lemma write_loop_defined (buf : list ascii) (len : Z) (fuel : nat) (m : Z) :
  0 <= m -> len <= 2147483600 ->
  write_loop fuel buf len (80 * m) = Some (chunks fuel buf len (80 * m)).
Proof.
  revert m. induction fuel as [|f IH]; intros m Hm Hl; [reflexivity|]. cbn [write_loop chunks].
  destruct (Z.ltb_spec (80 * m) len); [|reflexivity].
  destruct (Z.leb_spec (80 * m + 80) INT_MAX); [|unfold INT_MAX in *; lia].
  replace (80 * m + 80) with (80 * (m + 1)) by lia.
  rewrite IH by lia. reflexivity.
Qed.

(** Beyond it the counter reaches 2147483600 while still below [len],
    and the next [i += 80] overflows. *)
Lemma write_loop_overflow (buf : list ascii) (len : Z) (fuel : nat) (m : Z) :
  0 <= m -> 80 * m <= 2147483600 -> 2147483600 < len ->
  (Z.to_nat (len - 80 * m) < fuel)%nat ->
  write_loop fuel buf len (80 * m) = None.
Proof.
  revert m. induction fuel as [|f IH]; intros m Hm Hi Hl Hf; [lia|]. cbn [write_loop].
  destruct (Z.ltb_spec (80 * m) len); [|lia].
  destruct (Z.leb_spec (80 * m + 80) INT_MAX); [|reflexivity].
  unfold INT_MAX in *.
  replace (80 * m + 80) with (80 * (m + 1)) by lia.
  rewrite IH by lia. reflexivity.
Qed.

Lemma WriteToStderr_chunks_eq (buf : list ascii) (len : Z) :
  len <= 2147483600 ->
  WriteToStderr buf len = Some (chunks (S (Z.to_nat len)) buf len 0).
Proof.
  intro H. unfold WriteToStderr.
  pose proof (write_loop_defined buf len (S (Z.to_nat len)) 0) as E.
  rewrite Z.mul_0_r in E. apply E; lia.
Qed.

Lemma chunks_concat (buf : list ascii) (len : Z) (fuel : nat) (i : Z) :
  0 <= i -> (Z.to_nat (len - i) < fuel)%nat ->
  List.concat (map bytes (chunks fuel buf len i)) =
  firstn (Z.to_nat (len - i)) (skipn (Z.to_nat i) buf).
Proof.
  revert i. induction fuel as [|f IH]; intros i Hi Hf; [lia|]. simpl.
  destruct (Z.ltb_spec i len) as [Hlt|Hge].
  - simpl. rewrite IH by lia.
    replace (Z.to_nat (i + 80)) with (80 + Z.to_nat i)%nat by lia.
    rewrite <- skipn_skipn.
    destruct (Z.le_gt_cases (len - i) 80) as [Hs|Hb].
    + rewrite Z.min_r by lia.
      replace (Z.to_nat (len - (i + 80))) with O by lia.
      rewrite firstn_O, app_nil_r. reflexivity.
    + rewrite Z.min_l by lia.
      replace (Z.to_nat (len - i)) with (80 + Z.to_nat (len - (i + 80)))%nat by lia.
      rewrite firstn_add. reflexivity.
  - replace (Z.to_nat (len - i)) with O by lia. reflexivity.
Qed.

Lemma chunks_sizes (buf : list ascii) (len : Z) (fuel : nat) (i : Z) :
  0 <= i -> len <= Z.of_nat (List.length buf) ->
  Forall (fun c => fd c = STDERR_FILENO /\
                   (1 <= List.length (bytes c) <= 80)%nat)
         (chunks fuel buf len i).
Proof.
  revert i. induction fuel as [|f IH]; intros i Hi Hl; simpl; [constructor|].
  destruct (Z.ltb_spec i len); [|constructor].
  constructor; [|apply IH; lia].
  simpl. split; [reflexivity|].
  rewrite length_firstn, length_skipn. lia.
Qed.

Lemma chunks_count (buf : list ascii) (len : Z) (fuel : nat) (i : Z) :
  (Z.to_nat (len - i) < fuel)%nat ->
  List.length (chunks fuel buf len i) = Z.to_nat ((len - i + 79) / 80).
Proof.
  revert i. induction fuel as [|f IH]; intros i Hf; [lia|]. simpl.
  destruct (Z.ltb_spec i len) as [Hlt|Hge].
  - simpl. rewrite IH by lia.
    replace (len - i + 79) with ((len - (i + 80) + 79) + 1 * 80) by lia.
    rewrite Z.div_add by lia.
    assert (0 <= (len - (i + 80) + 79) / 80) by (apply Z.div_pos; lia).
    lia.
  - assert ((len - i + 79) / 80 < 1) by (apply Z.div_lt_upper_bound; lia). simpl.
    lia.
Qed.

(** For [0 <= len <= 2147483600] within the buffer, WriteToStderr has a
    defined run, and its [write] calls together pass exactly the first
    [len] bytes of [buf], in order. *)
Theorem WriteToStderr_writes_prefix (buf : list ascii) (len : Z) :
  0 <= len <= 2147483600 -> len <= Z.of_nat (List.length buf) ->
  exists calls, WriteToStderr buf len = Some calls /\
    List.concat (map bytes calls) = firstn (Z.to_nat len) buf /\
    List.length (List.concat (map bytes calls)) = Z.to_nat len.
Proof.
  intros H Hb. rewrite WriteToStderr_chunks_eq by lia.
  eexists. split; [reflexivity|].
  rewrite chunks_concat by lia. rewrite Z.sub_0_r. simpl.
  split; [reflexivity|]. rewrite length_firstn. lia.
Qed.

Lemma WriteToStderr_writes_prefix_witness :
  exists calls, WriteToStderr (repeat "x"%char 200) 170 = Some calls /\
    List.concat (map bytes calls) = repeat "x"%char 170.
Proof.
  destruct (WriteToStderr_writes_prefix (repeat "x"%char 200) 170
              ltac:(lia) ltac:(rewrite repeat_length; lia)) as (calls & E & C & _).
  exists calls. split; [exact E|]. rewrite C. reflexivity.
Defined.

(** For [len <= 2147483600] within the buffer, every [write] call goes to
    stderr and passes between 1 and 80 bytes: no call exceeds the 80-byte
    limit and none is empty. *)
Theorem WriteToStderr_chunks (buf : list ascii) (len : Z) :
  len <= 2147483600 -> len <= Z.of_nat (List.length buf) ->
  exists calls, WriteToStderr buf len = Some calls /\
    Forall (fun c => fd c = STDERR_FILENO /\ (1 <= List.length (bytes c) <= 80)%nat) calls.
Proof.
  intros H Hb. rewrite WriteToStderr_chunks_eq by lia.
  eexists. split; [reflexivity|]. apply chunks_sizes; lia.
Qed.

Lemma WriteToStderr_chunks_witness :
  exists calls, WriteToStderr (repeat "x"%char 200) 170 = Some calls /\
    Forall (fun c => fd c = STDERR_FILENO /\ (1 <= List.length (bytes c) <= 80)%nat) calls.
Proof.
  exact (WriteToStderr_chunks (repeat "x"%char 200) 170
           ltac:(lia) ltac:(rewrite repeat_length; lia)).
Defined.

(** For [len <= 2147483600], WriteToStderr makes ceil(len / 80) [write]
    calls, and none at all when [len] is zero or negative. *)
Theorem WriteToStderr_call_count (buf : list ascii) (len : Z) :
  len <= 2147483600 ->
  exists calls, WriteToStderr buf len = Some calls /\
    List.length calls = Z.to_nat ((len + 79) / 80) /\
    (len <= 0 -> calls = []).
Proof.
  intro H. rewrite WriteToStderr_chunks_eq by lia.
  eexists. split; [reflexivity|]. split.
  - rewrite chunks_count by lia. now rewrite Z.sub_0_r.
  - intro Hn. simpl. destruct (Z.ltb_spec 0 len); [lia | reflexivity].
Qed.

Lemma WriteToStderr_call_count_witness :
  exists calls, WriteToStderr (repeat "x"%char 200) 170 = Some calls /\
    List.length calls = 3%nat.
Proof.
  destruct (WriteToStderr_call_count (repeat "x"%char 200) 170 ltac:(lia))
    as (calls & E & L & _).
  exists calls. split; [exact E|]. rewrite L. reflexivity.
Defined.

(** For [2147483600 < len <= INT_MAX] the loop counter reaches
    2147483600 while still below [len], and the next [i += 80] overflows
    [int]: WriteToStderr has no defined behaviour for these lengths. *)
Theorem WriteToStderr_overflow (buf : list ascii) (len : Z) :
  2147483600 < len <= INT_MAX ->
  WriteToStderr buf len = None.
Proof.
  intro H. unfold WriteToStderr.
  pose proof (write_loop_overflow buf len (S (Z.to_nat len)) 0) as E.
  rewrite Z.mul_0_r in E. apply E; lia.
Qed.

Lemma WriteToStderr_overflow_witness :
  WriteToStderr [] INT_MAX = None.
Proof.
  exact (WriteToStderr_overflow [] INT_MAX ltac:(unfold INT_MAX; lia)).
Defined.

End StderrProofs.

(* ================================================================= *)
(** * Further properties of the threads code *)

Module TlsExtra.

Import Tls TlsProofs.
Local Open Scope N_scope.

(** On the DllMain path, DLL_THREAD_DETACH followed by
    DLL_PROCESS_DETACH for the same thread calls the destructor at most
    once when the destructor does not put a non-null value back into its
    cleared slot. *)
Theorem DllMain_detach_twice_at_most_once destr_body h pv s :
  let f := destr_fn (destr_fn_info s) in
  let k := key_for_destr_fn_arg (destr_fn_info s) in
  (forall a t, t k = NULL -> destr_body f a t k = NULL) ->
  let s1 := fst (DllMain destr_body h DLL_THREAD_DETACH pv s) in
  let s2 := fst (DllMain destr_body h DLL_PROCESS_DETACH pv s1) in
  (count_destr (trace s2) <= S (count_destr (trace s)))%nat.
Proof.
  intros f k Hd s1 s2. subst s1 s2. unfold DllMain, on_tls_callback. simpl.
  pose proof (on_process_term_count destr_body (fst (on_process_term destr_body s))) as H2.
  pose proof (on_process_term_count destr_body s) as H1.
  destruct (on_process_term_info destr_body s) as [Hi _].
  simpl in H1, H2. rewrite Hi in H2. rewrite H2, H1.
  destruct (N.eqb (destr_fn (destr_fn_info s)) NULL) eqn:Hf; simpl; [lia|].
  apply N.eqb_neq in Hf.
  rewrite (on_process_term_slot_after destr_body s Hf Hd), N.eqb_refl. simpl.
  match goal with |- context [if ?b then _ else _] => destruct b end; lia.
Qed.

Lemma DllMain_detach_twice_at_most_once_witness :
  Nat.le (count_destr (trace (fst (DllMain inert_destr 0 DLL_PROCESS_DETACH 0
            (fst (DllMain inert_destr 0 DLL_THREAD_DETACH 0 (stored_state 5)))))))
         (S (count_destr (trace (stored_state 5)))).
Proof.
  exact (DllMain_detach_twice_at_most_once inert_destr 0 0 (stored_state 5)
           (fun a t Ht => Ht)).
Defined.

(** A registered key whose handle is not a valid TLS index (as
    TLS_OUT_OF_INDEXES is, once PthreadKeyCreate ran out of indexes)
    never gets its destructor called: the notifier reads 0 from it and
    leaves the slots unchanged. *)
Theorem invalid_key_never_destroyed destr_body s :
  tls_valid s (key_for_destr_fn_arg (destr_fn_info s)) = false ->
  count_destr (trace (fst (on_process_term destr_body s))) = count_destr (trace s) /\
  tls_slots (fst (on_process_term destr_body s)) = tls_slots s.
Proof.
  intro Hv. split.
  - rewrite (on_process_term_count destr_body s). simpl.
    unfold slot_value. rewrite Hv. rewrite N.eqb_refl, andb_false_r. lia.
  - rewrite on_process_term_shape.
    destruct (N.eqb (destr_fn (destr_fn_info s)) NULL); [reflexivity|].
    unfold slot_value. rewrite Hv. rewrite N.eqb_refl. simpl.
    unfold TlsSetValue, emit, tls_valid in *. simpl. rewrite Hv. reflexivity.
Qed.

Lemma invalid_key_never_destroyed_witness :
  key_for_destr_fn_arg (destr_fn_info (after_create false 7 exhausted_state))
    = TLS_OUT_OF_INDEXES /\
  count_destr (trace (fst (on_process_term inert_destr (after_create false 7 exhausted_state))))
    = count_destr (trace (after_create false 7 exhausted_state)).
Proof.
  split; [vm_compute; reflexivity|].
  refine (proj1 (invalid_key_never_destroyed inert_destr _ _)).
  vm_compute. reflexivity.
Defined.

(** End to end: in a process with no destructor registered and TLS
    indexes left, creating a key with destructor [f], storing a non-null
    [v] in it and ending the thread calls [f] exactly once, with [v],
    after the slot was cleared. *)
Theorem create_store_exit destr_body ndebug f v s :
  destr_fn (destr_fn_info s) = NULL ->
  tls_allocated s < TLS_INDEX_LIMIT ->
  f <> NULL -> v <> NULL ->
  match PthreadKeyCreate ndebug f s with
  | Ok k s1 =>
      let s2 := TlsSetValue s1 k v in
      let s3 := on_tls_callback destr_body 0 DLL_THREAD_DETACH 0 s2 in
      k = tls_allocated s /\
      trace s3 = trace s2 ++ [EvTlsGetValue k; EvTlsSetValue k NULL; EvDestr f v NULL] /\
      tls_slots s3 = destr_body f v (slot_update (tls_slots s2) k NULL)
  | Fatal _ => False
  end.
Proof.
  intros Hreg Hl Hf Hv.
  set (n := tls_allocated s).
  assert (E : PthreadKeyCreate ndebug f s =
              Ok n (mkState (mkClosure f n) (N.succ n) (tls_slots s) (trace s))).
  { unfold PthreadKeyCreate, TlsAlloc.
    rewrite (proj2 (N.ltb_lt _ _) Hl). simpl.
    rewrite (eqb_neq_false _ _ Hf). simpl. unfold c_assert.
    rewrite Hreg. destruct ndebug; reflexivity. }
  rewrite E. cbv zeta.
  assert (Hlt : N.ltb n (N.succ n) = true) by (apply N.ltb_lt; lia).
  split; [reflexivity|].
  assert (E2 : TlsSetValue (mkState (mkClosure f n) (N.succ n) (tls_slots s) (trace s)) n v =
               mkState (mkClosure f n) (N.succ n) (slot_update (tls_slots s) n v)
                       (trace s ++ [EvTlsSetValue n v])).
  { unfold TlsSetValue, tls_valid, emit, set_slots. simpl. rewrite Hlt. reflexivity. }
  rewrite E2.
  unfold on_tls_callback. rewrite N.eqb_refl.
  rewrite on_process_term_shape. simpl.
  rewrite (eqb_neq_false _ _ Hf).
  assert (Hn : slot_update (tls_slots s) n v n = v)
    by (unfold slot_update; now rewrite N.eqb_refl).
  assert (Hn0 : forall t, slot_update t n NULL n = NULL)
    by (intro t; unfold slot_update; now rewrite N.eqb_refl).
  unfold slot_value, tls_valid. simpl. rewrite Hlt, Hn, (eqb_neq_false _ _ Hv).
  unfold call_destr, TlsSetValue, emit, set_slots, tls_valid. simpl.
  rewrite Hlt. simpl. rewrite Hn0.
  repeat rewrite <- app_assoc. simpl. split; reflexivity.
Qed.

Lemma create_store_exit_witness :
  match PthreadKeyCreate false 1 init_state with
  | Ok k s1 =>
      let s2 := TlsSetValue s1 k 5 in
      let s3 := on_tls_callback inert_destr 0 DLL_THREAD_DETACH 0 s2 in
      k = tls_allocated init_state /\
      trace s3 = trace s2 ++ [EvTlsGetValue k; EvTlsSetValue k NULL; EvDestr 1 5 NULL] /\
      tls_slots s3 = inert_destr 1 5 (slot_update (tls_slots s2) k NULL)
  | Fatal _ => False
  end.
Proof.
  exact (create_store_exit inert_destr false 1 5 init_state eq_refl
           ltac:(vm_compute; reflexivity) ltac:(vm_compute; discriminate)
           ltac:(vm_compute; discriminate)).
Defined.

End TlsExtra.


(* ================================================================= *)
(** * Further properties of DeleteMatchingFiles *)

Module FilesExtra.

Import Files.
Local Open Scope string_scope.

(** Whether the loop over [names], run in directory [here], unlinks [e]. *)
Definition removed_by (prefix : string) (names : list string) (here : string) (e : Entry) : bool :=
  String.eqb (dir e) here &&
  existsb (fun n => String.eqb n (name e)) (filter (name_has_prefix prefix) names).

Lemma filter_filter_and {A} (p q : A -> bool) (l : list A) :
  filter p (filter q l) = filter (fun x => q x && p x) l.
Proof.
  induction l as [|a l IH]; simpl; [reflexivity|].
  destruct (q a); simpl; [destruct (p a); simpl; now rewrite IH | exact IH].
Qed.

Lemma DeleteMatchingFiles_loop prefix full_glob fs :
  DeleteMatchingFiles prefix full_glob fs =
  delete_loop prefix (find_files fs full_glob) fs.
Proof.
  unfold DeleteMatchingFiles. destruct (find_files fs full_glob); reflexivity.
Qed.

Lemma delete_loop_cons prefix n rest fs :
  delete_loop prefix (n :: rest) fs =
  delete_loop prefix rest
    (if name_has_prefix prefix n
     then _unlink n (RAW_VLOG ("Removing old heap profile " ++ n) fs) else fs).
Proof. reflexivity. Qed.

Lemma removed_by_cons prefix n rest here e :
  removed_by prefix (n :: rest) here e =
  String.eqb (dir e) here &&
  ((name_has_prefix prefix n && String.eqb n (name e)) ||
   existsb (fun n' => String.eqb n' (name e)) (filter (name_has_prefix prefix) rest)).
Proof.
  unfold removed_by. simpl. destruct (name_has_prefix prefix n); reflexivity.
Qed.

Lemma delete_loop_entries prefix names fs :
  cwd (delete_loop prefix names fs) = cwd fs /\
  entries (delete_loop prefix names fs) =
  filter (fun e => negb (removed_by prefix names (cwd fs) e)) (entries fs).
Proof.
  revert fs. induction names as [|n rest IH]; intro fs.
  - split; [reflexivity|]. simpl.
    induction (entries fs) as [|e l IHl]; simpl; [reflexivity|].
    unfold removed_by at 1. simpl. rewrite andb_false_r. simpl.
    now rewrite <- IHl.
  - rewrite delete_loop_cons.
    destruct (IH (if name_has_prefix prefix n
                  then _unlink n (RAW_VLOG ("Removing old heap profile " ++ n) fs)
                  else fs)) as [Hc He].
    destruct (name_has_prefix prefix n) eqn:Hp;
      rewrite Hc, He; simpl; split; try reflexivity.
    + rewrite filter_filter_and. apply filter_ext. intro e.
      rewrite removed_by_cons, Hp. unfold entry_eqb. simpl.
      rewrite (String.eqb_sym n (name e)). unfold removed_by.
      destruct (String.eqb (dir e) (cwd fs)), (String.eqb (name e) n),
               (existsb _ _); reflexivity.
    + apply filter_ext. intro e. rewrite removed_by_cons, Hp. reflexivity.
Qed.

Lemma delete_loop_vlog prefix names fs :
  vlog (delete_loop prefix names fs) =
  List.app (vlog fs) (map (fun n => "Removing old heap profile " ++ n)
                          (filter (name_has_prefix prefix) names)).
Proof.
  revert fs. induction names as [|n rest IH]; intro fs.
  - simpl. now rewrite app_nil_r.
  - rewrite delete_loop_cons, IH. simpl.
    destruct (name_has_prefix prefix n); simpl; [|reflexivity].
    now rewrite <- List.app_assoc.
Qed.

(** Whatever the glob, DeleteMatchingFiles only ever removes entries:
    it creates none, and it never removes an entry outside the process's
    current directory. *)
Theorem DeleteMatchingFiles_only_removes_in_cwd prefix glob fs :
  cwd (DeleteMatchingFiles prefix glob fs) = cwd fs /\
  incl (entries (DeleteMatchingFiles prefix glob fs)) (entries fs) /\
  forall e, In e (entries fs) -> dir e <> cwd fs ->
            In e (entries (DeleteMatchingFiles prefix glob fs)).
Proof.
  rewrite DeleteMatchingFiles_loop.
  destruct (delete_loop_entries prefix (find_files fs glob) fs) as [Hc He].
  rewrite Hc, He. split; [reflexivity|]. split.
  - intros e Hin. apply filter_In in Hin. tauto.
  - intros e Hin Hd. apply filter_In. split; [exact Hin|].
    unfold removed_by. apply String.eqb_neq in Hd. now rewrite Hd.
Qed.

(** Whatever the glob, the log gets one line per found name that starts
    with [prefix], in the order the search returned them; this is so
    even when the unlink that follows finds no such file. *)
Theorem DeleteMatchingFiles_log prefix glob fs :
  vlog (DeleteMatchingFiles prefix glob fs) =
  List.app (vlog fs) (map (fun n => "Removing old heap profile " ++ n)
                          (filter (name_has_prefix prefix) (find_files fs glob))).
Proof.
  rewrite DeleteMatchingFiles_loop. apply delete_loop_vlog.
Qed.

End FilesExtra.
